(** * User service (src/app.js): a shallow embedding of the Express handlers,
    the in-memory store, the NATS adapter state, and the process lifecycle. *)

From Stdlib Require Import String Ascii List ZArith Bool Lia Sorting.Sorted.
Import ListNotations.
Set Warnings "-register-all".
Open Scope string_scope.
Open Scope Z_scope.

(** ** JSON values as the handlers see them after [express.json()].
    Numbers are kept integral (the handlers only ever compare ids). *)

Inductive jval : Type :=
| JNull
| JBool (b : bool)
| JNum (n : Z)
| JStr (s : string)
| JArr (xs : list jval)
| JObj (fs : list (string * jval)).

(** Property access [o.k]: [None] is JavaScript's [undefined]. *)
Definition get_field (o : jval) (k : string) : option jval :=
  match o with
  | JObj fs =>
      match find (fun kv => String.eqb (fst kv) k) fs with
      | Some (_, v) => Some v
      | None => None
      end
  | _ => None
  end.

(** JavaScript truthiness of a (possibly undefined) value:
    [undefined], [null], [false], [0] and [""] are falsy. *)
Definition truthy (v : option jval) : bool :=
  match v with
  | None => false
  | Some JNull => false
  | Some (JBool b) => b
  | Some (JNum n) => negb (n =? 0)
  | Some (JStr s) => negb (String.eqb s "")
  | Some (JArr _) => true
  | Some (JObj _) => true
  end.

(** [a || b] *)
Definition js_or (a : option jval) (b : jval) : jval :=
  match a with
  | Some v => if truthy a then v else b
  | None => b
  end.

(** ** Records, store and process state *)

Record user : Type := mkUser {
  id : Z;
  name : jval;
  email : jval;
  createdAt : string;
  updatedAt : option string
}.

(** [JSON.stringify] / [res.json] of a record: an undefined [updatedAt]
    is omitted. *)
Definition user_to_json (u : user) : jval :=
  JObj ([("id", JNum (id u)); ("name", name u); ("email", email u);
         ("createdAt", JStr (createdAt u))]
        ++ match updatedAt u with
           | Some t => [("updatedAt", JStr t)]
           | None => []
           end)%list.

(** The NATS client object held in [nats]. *)
Record nats_client : Type := NatsClient { servers : string }.

Record state : Type := mkState {
  users : list user;
  nextId : Z;
  nats : option nats_client
}.

(** [let users = []; let nextId = 1; let nats = null;] *)
Definition init_state : state := mkState [] 1 None.

(** An HTTP response: [body = None] is an empty body ([res.send()]). *)
Record response : Type := mkResponse {
  status : Z;
  body : option jval
}.

Definition json_resp (s : Z) (v : jval) : response := mkResponse s (Some v).

Definition not_found : response :=
  json_resp 404 (JObj [("error", JStr "User not found")]).

(** Observable actions of a handler, in the order the code performs them. *)
Inductive effect : Type :=
| ELog (msg : string)
| EPublish (topic : string) (payload : jval)
| EPublishSettled (ok : bool)
| ERespond (r : response)
| EStopListening
| ECloseNats
| EExit (code : Z).

(** Outcome of the awaited [nats.publish(...)] call. *)
Inductive pub_outcome : Type :=
| PubOk
| PubFail (err : string).

(** Outcome of [Client.connect(...)]. *)
Inductive connect_outcome : Type :=
| ConnOk (c : nats_client)
| ConnFail (err : string).

(** Completion of an async function: normal return or a rejected promise. *)
Inductive completion : Type :=
| Normal
| Throw (err : string).

(** ** [parseInt(s)] with an undefined radix (ECMAScript 19.2.5).
    [None] is [NaN].  Leading white space is the ASCII subset of
    StrWhiteSpaceChar (tab, LF, VT, FF, CR, space). *)

Definition is_ws (c : ascii) : bool :=
  let n := nat_of_ascii c in
  (Nat.eqb n 9 || Nat.eqb n 10 || Nat.eqb n 11 || Nat.eqb n 12
   || Nat.eqb n 13 || Nat.eqb n 32)%bool.

Fixpoint skip_ws (s : string) : string :=
  match s with
  | String c t => if is_ws c then skip_ws t else s
  | EmptyString => s
  end.

(** Value of a character as a digit of radix up to 36. *)
Definition digit_val (c : ascii) : option Z :=
  let n := Z.of_nat (nat_of_ascii c) in
  if (48 <=? n) && (n <=? 57) then Some (n - 48)
  else if (97 <=? n) && (n <=? 122) then Some (n - 87)
  else if (65 <=? n) && (n <=? 90) then Some (n - 55)
  else None.

(** The digits of the longest prefix made of radix-[r] digits. *)
Fixpoint digit_prefix (r : Z) (s : string) : list Z :=
  match s with
  | String c t =>
      match digit_val c with
      | Some d => if d <? r then d :: digit_prefix r t else []
      | None => []
      end
  | EmptyString => []
  end.

Definition digits_value (r : Z) (ds : list Z) : Z :=
  fold_left (fun acc d => acc * r + d) ds 0.

Definition parseInt (s : string) : option Z :=
  let s1 := skip_ws s in
  let '(sign, s2) :=
    match s1 with
    | String "-" t => (-1, t)
    | String "+" t => (1, t)
    | _ => (1, s1)
    end in
  let '(r, s3) :=
    match s2 with
    | String "0" (String x t) =>
        if (Ascii.eqb x "x" || Ascii.eqb x "X")%bool then (16, t) else (10, s2)
    | _ => (10, s2)
    end in
  match digit_prefix r s3 with
  | [] => None
  | ds => Some (sign * digits_value r ds)
  end.

(** ** Array helpers *)

(** [u => u.id === userId]; [NaN] equals nothing. *)
Definition id_matches (userId : option Z) (u : user) : bool :=
  match userId with
  | Some n => id u =? n
  | None => false
  end.

(** [Array.prototype.findIndex]: [-1] when no element matches. *)
Fixpoint findIndex (p : user -> bool) (us : list user) : Z :=
  match us with
  | [] => -1
  | u :: t =>
      if p u then 0
      else let i := findIndex p t in if i =? -1 then -1 else i + 1
  end.

(** [users[i] = x] for an in-range [i]. *)
Fixpoint replace_at (i : nat) (x : user) (us : list user) : list user :=
  match us, i with
  | [], _ => []
  | _ :: t, O => x :: t
  | u :: t, S j => u :: replace_at j x t
  end.

(** [users.splice(i, 1)] *)
Definition splice1 (us : list user) (i : nat) : list user :=
  firstn i us ++ skipn (S i) us.

(** ** Handlers *)

Definition server_error : response :=
  json_resp 500 (JObj [("error", JStr "Something went wrong!")]).

(** GET /api/users *)
Definition list_users (st : state) : state * list effect :=
  (st, [ERespond (json_resp 200
          (JObj [("users", JArr (map user_to_json (users st)));
                 ("count", JNum (Z.of_nat (length (users st))))]))]).

(** GET /ready *)
Definition ready (st : state) : state * list effect :=
  (st, [ERespond (json_resp 200
          (JObj [("status", JStr "ready");
                 ("natsConnected", JBool (match nats st with
                                          | Some _ => true
                                          | None => false end))]))]).

(** GET /api/users/:id *)
Definition get_user (st : state) (seg : string) : state * list effect :=
  let userId := parseInt seg in
  match find (id_matches userId) (users st) with
  | None => (st, [ERespond not_found])
  | Some u => (st, [ERespond (json_resp 200 (user_to_json u))])
  end.

(** POST /api/users.  The store is updated before the awaited publish; the
    response is written after the publish promise settles. *)
Definition post_user (st : state) (b : jval) (now : string) (pub : pub_outcome)
  : state * list effect :=
  let nm := get_field b "name" in
  let em := get_field b "email" in
  let bad := (negb (truthy nm) || negb (truthy em))%bool in
  match nm, em, bad with
  | Some n, Some e, false =>
      let u := mkUser (nextId st) n e now None in
      let st' := mkState (users st ++ [u])%list (nextId st + 1) (nats st) in
      let pub_tr :=
        match nats st with
        | None => []
        | Some _ =>
            EPublish "user.created" (user_to_json u) ::
            match pub with
            | PubOk => [EPublishSettled true; ELog "Published user.created event:"]
            | PubFail err => [EPublishSettled false; ELog ("Failed to publish event:" ++ err)]
            end
        end in
      (st', (pub_tr ++ [ERespond (json_resp 201 (user_to_json u))])%list)
  | _, _, _ =>
      (st, [ERespond (json_resp 400
                        (JObj [("error", JStr "Name and email are required")]))])
  end.

(** PUT /api/users/:id *)
Definition put_user (st : state) (seg : string) (b : jval) (now : string)
  : state * list effect :=
  let userId := parseInt seg in
  let userIndex := findIndex (id_matches userId) (users st) in
  if userIndex =? -1 then (st, [ERespond not_found])
  else
    match nth_error (users st) (Z.to_nat userIndex) with
    | None => (st, [ERespond server_error])
    | Some old =>
        let nu := mkUser (id old)
                         (js_or (get_field b "name") (name old))
                         (js_or (get_field b "email") (email old))
                         (createdAt old) (Some now) in
        let st' := mkState (replace_at (Z.to_nat userIndex) nu (users st))
                           (nextId st) (nats st) in
        (st', [ERespond (json_resp 200 (user_to_json nu))])
    end.

(** DELETE /api/users/:id *)
Definition delete_user (st : state) (seg : string) : state * list effect :=
  let userId := parseInt seg in
  let userIndex := findIndex (id_matches userId) (users st) in
  if userIndex =? -1 then (st, [ERespond not_found])
  else (mkState (splice1 (users st) (Z.to_nat userIndex)) (nextId st) (nats st),
        [ERespond (mkResponse 204 None)]).

(** [initNATS()]: the connect failure is caught, so the promise always
    resolves. *)
Definition initNATS (st : state) (o : connect_outcome)
  : completion * state * list effect :=
  match o with
  | ConnOk c => (Normal, mkState (users st) (nextId st) (Some c),
                 [ELog "Connected to NATS"])
  | ConnFail err => (Normal, st, [ELog ("NATS connection failed:" ++ err);
                                  ELog "Continuing without NATS integration"])
  end.



(** [String(n)] (as in the template literal [`/api/users/${userId}`] of
    src/app.test.js) for a non-negative safe integer: its decimal digits,
    most significant first.  [fuel] bounds the number of divisions. *)
Fixpoint to_dec_aux (fuel : nat) (n : Z) (acc : string) : string :=
  match fuel with
  | O => acc
  | S f =>
      let acc' := String (ascii_of_nat (48 + Z.to_nat (n mod 10))) acc in
      if n / 10 =? 0 then acc' else to_dec_aux f (n / 10) acc'
  end.

Definition number_to_string (n : Z) : string :=
  to_dec_aux (S (Z.to_nat (Z.log2 n))) n "".

(** ** Requests and runs.  Each request runs to completion; the only await
    in a request handler comes after its store update. *)

Inductive op : Type :=
| OpList
| OpReady
| OpGet (seg : string)
| OpPost (b : jval) (now : string) (pub : pub_outcome)
| OpPut (seg : string) (b : jval) (now : string)
| OpDelete (seg : string).

Definition step (st : state) (o : op) : state * list effect :=
  match o with
  | OpList => list_users st
  | OpReady => ready st
  | OpGet seg => get_user st seg
  | OpPost b now pub => post_user st b now pub
  | OpPut seg b now => put_user st seg b now
  | OpDelete seg => delete_user st seg
  end.

Fixpoint run (st : state) (ops : list op) : state * list effect :=
  match ops with
  | [] => (st, [])
  | o :: t =>
      let '(st1, tr1) := step st o in
      let '(st2, tr2) := run st1 t in
      (st2, (tr1 ++ tr2)%list)
  end.

(** The response written by a handler (the first [ERespond]). *)
Fixpoint response_of (tr : list effect) : option response :=
  match tr with
  | [] => None
  | ERespond r :: _ => Some r
  | _ :: t => response_of t
  end.

(** Ids of the records returned by successful creates, in order. *)
Definition created_ids (tr : list effect) : list Z :=
  flat_map (fun e =>
    match e with
    | ERespond r =>
        if status r =? 201 then
          match body r with
          | Some b => match get_field b "id" with Some (JNum n) => [n] | _ => [] end
          | None => []
          end
        else []
    | _ => []
    end) tr.

Inductive reachable : state -> Prop :=
| reach_init : reachable init_state
| reach_step : forall st o, reachable st -> reachable (fst (step st o)).

(** ** Auxiliary definitions used to state properties *)

(** [[s; s+1; ...; s+n-1]] *)
Fixpoint zrange (s : Z) (n : nat) : list Z :=
  match n with
  | O => []
  | S k => s :: zrange (s + 1) k
  end.

(** ** Proofs *)

Open Scope list_scope.
Open Scope Z_scope.

Ltac destr_matches :=
  repeat match goal with
         | |- context [match ?x with _ => _ end] => destruct x eqn:?
         end.

Lemma created_ids_app (t1 t2 : list effect) :
  created_ids (t1 ++ t2) = created_ids t1 ++ created_ids t2.
Proof. unfold created_ids. apply flat_map_app. Qed.

Lemma step_created (st : state) (o : op) :
  (created_ids (snd (step st o)) = [] /\ nextId (fst (step st o)) = nextId st) \/
  (created_ids (snd (step st o)) = [nextId st] /\
   nextId (fst (step st o)) = nextId st + 1).
Proof.
  destruct o; simpl.
  - left; auto.
  - left; auto.
  - unfold get_user. destruct (find _ _); left; auto.
  - unfold post_user.
    destruct (get_field b "name"), (get_field b "email");
      try (left; auto; fail).
    destruct (negb (truthy (Some j)) || negb (truthy (Some j0)))%bool;
      [left; auto|].
    right. simpl. rewrite created_ids_app.
    destruct (nats st) as [c|]; [destruct pub|]; simpl; auto.
  - unfold put_user. destr_matches; simpl; left; auto.
  - unfold delete_user. destr_matches; simpl; left; auto.
Qed.

Lemma run_created (ops : list op) : forall st,
  created_ids (snd (run st ops)) =
    zrange (nextId st) (length (created_ids (snd (run st ops)))) /\
  nextId (fst (run st ops)) =
    nextId st + Z.of_nat (length (created_ids (snd (run st ops)))).
Proof.
  induction ops as [|o t IH]; intro st; simpl.
  - split; [reflexivity | lia].
  - destruct (step st o) as [st1 tr1] eqn:Hs.
    destruct (run st1 t) as [st2 tr2] eqn:Hr. simpl.
    destruct (IH st1) as [IH1 IH2]. rewrite Hr in IH1, IH2. simpl in IH1, IH2.
    pose proof (step_created st o) as Hc. rewrite Hs in Hc. simpl in Hc.
    rewrite created_ids_app.
    destruct Hc as [[H1 H2] | [H1 H2]]; rewrite H1; simpl.
    + rewrite <- H2. split; assumption.
    + split.
      * simpl. rewrite <- H2. f_equal. exact IH1.
      * simpl length. lia.
Qed.

Lemma zrange_seq (n k : nat) : zrange (Z.of_nat k) n = map Z.of_nat (seq k n).
Proof.
  revert k; induction n as [|n IH]; intro k; simpl; [reflexivity|].
  f_equal. rewrite <- IH. f_equal. lia.
Qed.

Lemma zrange_lower (n : nat) : forall s x, In x (zrange s n) -> s <= x.
Proof.
  induction n as [|n IH]; intros s x Hx; simpl in Hx; [contradiction|].
  destruct Hx as [<-|Hx]; [lia|]. apply IH in Hx. lia.
Qed.

Lemma zrange_NoDup (n : nat) : forall s, NoDup (zrange s n).
Proof.
  induction n as [|n IH]; intro s; simpl; constructor; auto.
  intro Hin. apply zrange_lower in Hin. lia.
Qed.

(** C2: from the empty store, over any sequence of requests, the ids handed
    out by successful creates are 1, 2, 3, ... in order: the i-th successful
    create gets id i, and no id is handed out twice, deletes notwithstanding. *)
Theorem created_ids_sequential (ops : list op) :
  let ids := created_ids (snd (run init_state ops)) in
  ids = map Z.of_nat (seq 1 (length ids)) /\ NoDup ids.
Proof.
  intro ids. destruct (run_created ops init_state) as [H _].
  fold ids in H. simpl in H.
  split.
  - rewrite H at 1. exact (zrange_seq (length ids) 1).
  - rewrite H. apply zrange_NoDup.
Qed.

(** *** Creating a user *)

Lemma post_user_valid (st : state) (b : jval) (now : string) (pub : pub_outcome) :
  (truthy (get_field b "name") && truthy (get_field b "email"))%bool = true ->
  exists n e, get_field b "name" = Some n /\ get_field b "email" = Some e /\
    post_user st b now pub =
      (mkState (users st ++ [mkUser (nextId st) n e now None]) (nextId st + 1) (nats st),
       match nats st with
       | None => []
       | Some _ =>
           EPublish "user.created" (user_to_json (mkUser (nextId st) n e now None)) ::
           match pub with
           | PubOk => [EPublishSettled true; ELog "Published user.created event:"]
           | PubFail err => [EPublishSettled false; ELog ("Failed to publish event:" ++ err)%string]
           end
       end ++ [ERespond (json_resp 201 (user_to_json (mkUser (nextId st) n e now None)))]).
Proof.
  unfold post_user. intro Hv.
  destruct (get_field b "name") as [n|]; [|discriminate].
  destruct (get_field b "email") as [e|]; [|rewrite andb_false_r in Hv; discriminate].
  apply andb_true_iff in Hv as [Hn He].
  exists n, e. rewrite Hn, He. simpl. auto.
Qed.

Lemma post_user_invalid (st : state) (b : jval) (now : string) (pub : pub_outcome) :
  (truthy (get_field b "name") && truthy (get_field b "email"))%bool = false ->
  post_user st b now pub =
    (st, [ERespond (json_resp 400 (JObj [("error", JStr "Name and email are required")]))]).
Proof.
  unfold post_user. intro Hv.
  destruct (get_field b "name") as [n|]; [|reflexivity].
  destruct (get_field b "email") as [e|]; [|reflexivity].
  destruct (truthy (Some n)), (truthy (Some e)); simpl in Hv;
    try discriminate; reflexivity.
Qed.

Lemma response_of_app (pre : list effect) (r : response) :
  (forall r', ~ In (ERespond r') pre) -> response_of (pre ++ [ERespond r]) = Some r.
Proof.
  induction pre as [|e pre IH]; intro H; simpl; [reflexivity|].
  destruct e; try (apply IH; intros r' Hin; apply (H r'); right; exact Hin).
  exfalso. apply (H r0). left. reflexivity.
Qed.

Lemma publish_trace_no_response (st : state) (u : user) (pub : pub_outcome) r' :
  ~ In (ERespond r')
    match nats st with
    | None => []
    | Some _ =>
        EPublish "user.created" (user_to_json u) ::
        match pub with
        | PubOk => [EPublishSettled true; ELog "Published user.created event:"]
        | PubFail err => [EPublishSettled false; ELog ("Failed to publish event:" ++ err)%string]
        end
    end.
Proof.
  destruct (nats st); [destruct pub|]; simpl; intuition discriminate.
Qed.

(** The condition of the spec's wording: a field that is absent or the
    empty string. *)
Definition empty_or_absent (v : option jval) : bool :=
  match v with
  | None => true
  | Some (JStr s) => String.eqb s ""
  | Some _ => false
  end.

(** C4 (counterexample): a body whose [name] is the JSON number 0 is neither
    absent nor empty, yet POST /api/users rejects it with 400, since [!name]
    holds for every falsy value. *)
Lemma post_user_zero_name_rejected :
  let b := JObj [("name", JNum 0); ("email", JStr "a@b.c")] in
  empty_or_absent (get_field b "name") = false /\
  empty_or_absent (get_field b "email") = false /\
  response_of (snd (post_user init_state b "t0" PubOk)) =
    Some (json_resp 400 (JObj [("error", JStr "Name and email are required")])).
Proof. vm_compute. auto. Qed.

(** C4 (amended): POST /api/users fails with 400 and
    [{error: "Name and email are required"}], leaving the store unchanged,
    exactly when [name] or [email] is falsy (absent, null, false, 0 or the
    empty string); otherwise it appends the record with id [nextId] and
    [createdAt] stamped, increments [nextId], and answers 201 with it. *)
Theorem post_user_spec (st : state) (b : jval) (now : string) (pub : pub_outcome) :
  let '(st', tr) := post_user st b now pub in
  if (truthy (get_field b "name") && truthy (get_field b "email"))%bool then
    exists n e, get_field b "name" = Some n /\ get_field b "email" = Some e /\
      let u := mkUser (nextId st) n e now None in
      users st' = users st ++ [u] /\ nextId st' = nextId st + 1 /\
      nats st' = nats st /\
      response_of tr = Some (json_resp 201 (user_to_json u))
  else
    st' = st /\
    response_of tr =
      Some (json_resp 400 (JObj [("error", JStr "Name and email are required")])).
Proof.
  destruct (truthy (get_field b "name") && truthy (get_field b "email"))%bool eqn:Hv.
  - destruct (post_user_valid st b now pub Hv) as (n & e & Hn & He & Hp).
    rewrite Hp. exists n, e. repeat split; auto.
    apply response_of_app. intro r'. apply publish_trace_no_response.
  - unfold post_user.
    destruct (get_field b "name") as [n|]; [|split; reflexivity].
    destruct (get_field b "email") as [e|]; [|split; reflexivity].
    destruct (truthy (Some n)), (truthy (Some e)); simpl in Hv;
      try discriminate; split; reflexivity.
Qed.

(** *** Ordering of the publish and the response *)

Fixpoint index_where (p : effect -> bool) (tr : list effect) : option nat :=
  match tr with
  | [] => None
  | e :: t => if p e then Some O else option_map S (index_where p t)
  end.

Definition is_settle (e : effect) : bool :=
  match e with EPublishSettled _ => true | _ => false end.

Definition is_respond (e : effect) : bool :=
  match e with ERespond _ => true | _ => false end.

Definition is_publish (e : effect) : bool :=
  match e with EPublish _ _ => true | _ => false end.

(** Fire-and-forget as the spec words it: the response is written before the
    publish settles (or no publish happens at all). *)
Definition responds_before_publish_settles (tr : list effect) : bool :=
  match index_where is_respond tr, index_where is_settle tr with
  | Some r, Some s => Nat.ltb r s
  | Some _, None => true
  | None, _ => false
  end.

Definition connected_state : state :=
  mkState [] 1 (Some (NatsClient "nats://nats:4222")).

Definition john : jval :=
  JObj [("name", JStr "John Doe"); ("email", JStr "john@example.com")].

(** C1 (counterexample): with the adapter connected, a valid create writes
    its 201 response only after the awaited publish has settled. *)
Lemma post_user_response_waits_for_publish :
  responds_before_publish_settles
    (snd (post_user connected_state john "t0" PubOk)) = false /\
  option_map status (response_of (snd (post_user connected_state john "t0" PubOk)))
    = Some 201.
Proof. vm_compute. auto. Qed.

(** C1 (amended): on a successful create with the adapter connected, the
    handler awaits [nats.publish]: the publish settles (successfully or not)
    strictly before the 201 response is written, and it is issued before it
    settles.  With no adapter, no publish is issued or settled at all and the
    response is the handler's first action. *)
Theorem post_user_publish_then_respond (st : state) (b : jval) (now : string)
  (pub : pub_outcome)
  (Hv : (truthy (get_field b "name") && truthy (get_field b "email"))%bool = true) :
  let tr := snd (post_user st b now pub) in
  match nats st with
  | Some _ => exists p s r, index_where is_publish tr = Some p /\
                            index_where is_settle tr = Some s /\
                            index_where is_respond tr = Some r /\ (p < s < r)%nat
  | None => Forall (fun e => is_publish e = false /\ is_settle e = false) tr /\
            index_where is_respond tr = Some O
  end.
Proof.
  destruct (post_user_valid st b now pub Hv) as (n & e & _ & _ & Hp).
  simpl. rewrite Hp. simpl.
  destruct (nats st); [destruct pub|]; simpl.
  - exists O, 1%nat, 3%nat. repeat split; lia.
  - exists O, 1%nat, 3%nat. repeat split; lia.
  - split; [repeat constructor | reflexivity].
Qed.

(** *** Publish failures never reach the client *)

(** C9: the store update and the response of POST /api/users do not depend
    on the publish: they are the same whether the publish succeeds, fails, or
    is skipped because no adapter is connected; with no adapter nothing is
    published; a failing publish is logged. *)
Theorem post_user_publish_invisible (st : state) (b : jval) (now : string)
  (pub : pub_outcome) :
  let st0 := mkState (users st) (nextId st) None in
  response_of (snd (post_user st b now pub)) =
    response_of (snd (post_user st0 b now PubOk)) /\
  users (fst (post_user st b now pub)) = users (fst (post_user st0 b now PubOk)) /\
  nextId (fst (post_user st b now pub)) = nextId (fst (post_user st0 b now PubOk)) /\
  (nats st = None -> forallb (fun e => negb (is_publish e)) (snd (post_user st b now pub)) = true) /\
  (forall err, pub = PubFail err -> nats st <> None ->
     (truthy (get_field b "name") && truthy (get_field b "email"))%bool = true ->
     In (ELog ("Failed to publish event:" ++ err)%string) (snd (post_user st b now pub))).
Proof.
  intro st0.
  destruct (truthy (get_field b "name") && truthy (get_field b "email"))%bool eqn:Hv.
  - destruct (post_user_valid st b now pub Hv) as (n & e & Hn & He & Hp).
    destruct (post_user_valid st0 b now PubOk Hv) as (n' & e' & Hn' & He' & Hp0).
    rewrite Hn in Hn'; rewrite He in He'.
    injection Hn' as Hn'; injection He' as He'. subst n' e'.
    rewrite Hp, Hp0. simpl.
    assert (Hr : forall r', ~ In (ERespond r')
              match nats st with
              | None => []
              | Some _ =>
                  EPublish "user.created" (user_to_json (mkUser (nextId st) n e now None)) ::
                  match pub with
                  | PubOk => [EPublishSettled true; ELog "Published user.created event:"]
                  | PubFail err => [EPublishSettled false;
                                    ELog ("Failed to publish event:" ++ err)%string]
                  end
              end) by (intro r'; apply publish_trace_no_response).
    rewrite (response_of_app _ _ Hr).
    split; [reflexivity|]. split; [reflexivity|]. split; [reflexivity|].
    split.
    + intro Hnone. rewrite Hnone. reflexivity.
    + intros err -> Hc _. destruct (nats st); [|congruence].
      simpl. auto.
  - rewrite !(post_user_invalid _ b now _ Hv). simpl.
    repeat split; auto. intros err _ _ Hf. discriminate.
Qed.

(** *** Shutdown *)



(** *** Connecting to the bus *)

Lemma step_nats (st : state) (o : op) : nats (fst (step st o)) = nats st.
Proof.
  destruct o; simpl.
  - reflexivity.
  - reflexivity.
  - unfold get_user. destr_matches; reflexivity.
  - unfold post_user. destr_matches; reflexivity.
  - unfold put_user. destr_matches; reflexivity.
  - unfold delete_user. destr_matches; reflexivity.
Qed.

Lemma run_nats (ops : list op) : forall st, nats (fst (run st ops)) = nats st.
Proof.
  induction ops as [|o t IH]; intro st; simpl; [reflexivity|].
  destruct (step st o) as [st1 tr1] eqn:Hs.
  destruct (run st1 t) as [st2 tr2] eqn:Hr. simpl.
  rewrite <- (step_nats st o), Hs. simpl.
  specialize (IH st1). rewrite Hr in IH. exact IH.
Qed.

(** C8: a failed connect is caught by [initNATS], whose promise resolves
    normally and leaves [nats] null; after that, whatever requests follow,
    every valid POST /api/users is answered with 201 and GET /ready answers
    200 with [natsConnected: false]. *)
Theorem connect_failure_keeps_serving (st : state) (err : string)
  (Hn : nats st = None) :
  let '(c, st1, _) := initNATS st (ConnFail err) in
  c = Normal /\ nats st1 = None /\
  forall ops,
    let stn := fst (run st1 ops) in
    (forall b now pub,
       (truthy (get_field b "name") && truthy (get_field b "email"))%bool = true ->
       option_map status (response_of (snd (post_user stn b now pub))) = Some 201) /\
    response_of (snd (ready stn)) =
      Some (json_resp 200 (JObj [("status", JStr "ready");
                                 ("natsConnected", JBool false)])).
Proof.
  simpl. split; [reflexivity|]. split; [exact Hn|].
  intros ops. pose proof (run_nats ops st) as Hr. rewrite Hn in Hr.
  split.
  - intros b now pub Hv.
    pose proof (post_user_spec (fst (run st ops)) b now pub) as H.
    rewrite Hv in H.
    destruct (post_user _ b now pub) as [st' tr].
    destruct H as (n & e & _ & _ & _ & _ & _ & Hresp).
    simpl. rewrite Hresp. reflexivity.
  - unfold ready. rewrite Hr. reflexivity.
Qed.

(** *** Array lemmas *)

Lemma findIndex_spec (p : user -> bool) (us : list user) :
  match find p us with
  | None => findIndex p us = -1
  | Some u => exists i, findIndex p us = Z.of_nat i /\ nth_error us i = Some u
  end.
Proof.
  induction us as [|v t IH]; simpl; [reflexivity|].
  destruct (p v).
  - exists O. auto.
  - destruct (find p t) as [u|].
    + destruct IH as (i & Hi & Hn). rewrite Hi.
      exists (S i). split; [|exact Hn].
      destruct (Z.of_nat i =? -1) eqn:E; [lia|]. lia.
    + rewrite IH. reflexivity.
Qed.

Lemma find_id_unique (us : list user) (u : user) :
  NoDup (map id us) -> In u us -> find (id_matches (Some (id u))) us = Some u.
Proof.
  induction us as [|v t IH]; intros Hd Hin; [contradiction|].
  simpl in Hd. apply NoDup_cons_iff in Hd as [Hv Hd].
  simpl. destruct (id v =? id u) eqn:E.
  - apply Z.eqb_eq in E. destruct Hin as [->|Hin]; [reflexivity|].
    exfalso. apply Hv. rewrite E. apply in_map. exact Hin.
  - destruct Hin as [->|Hin]; [rewrite Z.eqb_refl in E; discriminate|].
    apply IH; assumption.
Qed.

Lemma find_id_absent (us : list user) (k : Z) :
  ~ In k (map id us) -> find (id_matches (Some k)) us = None.
Proof.
  induction us as [|v t IH]; intro H; simpl; [reflexivity|].
  simpl in H. destruct (id v =? k) eqn:E.
  - apply Z.eqb_eq in E. exfalso. apply H. left. exact E.
  - apply IH. intro Hin. apply H. right. exact Hin.
Qed.

Lemma replace_at_split (l1 l2 : list user) (x y : user) :
  replace_at (length l1) x (l1 ++ y :: l2) = l1 ++ x :: l2.
Proof. induction l1 as [|v t IH]; simpl; [reflexivity|]. rewrite IH. reflexivity. Qed.

Lemma splice1_split (l1 l2 : list user) (y : user) :
  splice1 (l1 ++ y :: l2) (length l1) = l1 ++ l2.
Proof.
  unfold splice1.
  rewrite firstn_app, Nat.sub_diag, firstn_all, firstn_O, app_nil_r.
  rewrite skipn_app. replace (S (length l1) - length l1)%nat with 1%nat by lia.
  rewrite skipn_all2 by lia. reflexivity.
Qed.

(** The handlers when the looked-up id is present or absent. *)

Definition updated (old : user) (b : jval) (now : string) : user :=
  mkUser (id old) (js_or (get_field b "name") (name old))
         (js_or (get_field b "email") (email old)) (createdAt old) (Some now).

Lemma put_user_found (st : state) (seg : string) (b : jval) (now : string) (old : user) :
  find (id_matches (parseInt seg)) (users st) = Some old ->
  exists l1 l2, users st = l1 ++ old :: l2 /\
    put_user st seg b now =
      (mkState (l1 ++ updated old b now :: l2) (nextId st) (nats st),
       [ERespond (json_resp 200 (user_to_json (updated old b now)))]).
Proof.
  intro Hf. pose proof (findIndex_spec (id_matches (parseInt seg)) (users st)) as Hs.
  rewrite Hf in Hs. destruct Hs as (i & Hi & Hn).
  destruct (nth_error_split _ _ Hn) as (l1 & l2 & Hu & Hl).
  exists l1, l2. split; [exact Hu|].
  unfold put_user. rewrite Hi.
  destruct (Z.of_nat i =? -1) eqn:E; [lia|].
  rewrite Nat2Z.id, Hn. rewrite Hu, <- Hl, replace_at_split. reflexivity.
Qed.

Lemma put_user_absent (st : state) (seg : string) (b : jval) (now : string) :
  find (id_matches (parseInt seg)) (users st) = None ->
  put_user st seg b now = (st, [ERespond not_found]).
Proof.
  intro Hf. pose proof (findIndex_spec (id_matches (parseInt seg)) (users st)) as Hs.
  rewrite Hf in Hs. unfold put_user. rewrite Hs. reflexivity.
Qed.

Lemma delete_user_found (st : state) (seg : string) (old : user) :
  find (id_matches (parseInt seg)) (users st) = Some old ->
  exists l1 l2, users st = l1 ++ old :: l2 /\
    delete_user st seg =
      (mkState (l1 ++ l2) (nextId st) (nats st), [ERespond (mkResponse 204 None)]).
Proof.
  intro Hf. pose proof (findIndex_spec (id_matches (parseInt seg)) (users st)) as Hs.
  rewrite Hf in Hs. destruct Hs as (i & Hi & Hn).
  destruct (nth_error_split _ _ Hn) as (l1 & l2 & Hu & Hl).
  exists l1, l2. split; [exact Hu|].
  unfold delete_user. rewrite Hi.
  destruct (Z.of_nat i =? -1) eqn:E; [lia|].
  rewrite Nat2Z.id, Hu, <- Hl, splice1_split. reflexivity.
Qed.

Lemma delete_user_absent (st : state) (seg : string) :
  find (id_matches (parseInt seg)) (users st) = None ->
  delete_user st seg = (st, [ERespond not_found]).
Proof.
  intro Hf. pose proof (findIndex_spec (id_matches (parseInt seg)) (users st)) as Hs.
  rewrite Hf in Hs. unfold delete_user. rewrite Hs. reflexivity.
Qed.

(** *** The store invariant: ids are distinct and below [nextId]; names and
    emails are truthy. *)

Definition user_ok (n : Z) (u : user) : Prop :=
  id u < n /\ truthy (Some (name u)) = true /\ truthy (Some (email u)) = true.

Definition store_inv (st : state) : Prop :=
  NoDup (map id (users st)) /\ Forall (user_ok (nextId st)) (users st).

Lemma js_or_truthy (a : option jval) (x : jval) :
  truthy (Some x) = true -> truthy (Some (js_or a x)) = true.
Proof.
  intro Hx. destruct a as [v|]; [|exact Hx].
  unfold js_or. destruct (truthy (Some v)) eqn:E; [exact E | exact Hx].
Qed.

Lemma store_inv_init : store_inv init_state.
Proof. split; simpl; constructor. Qed.

Lemma store_inv_step (st : state) (o : op) :
  store_inv st -> store_inv (fst (step st o)).
Proof.
  intros [Hd Hf]. destruct o; simpl.
  - split; assumption.
  - split; assumption.
  - unfold get_user. destruct (find _ _); split; assumption.
  - destruct (truthy (get_field b "name") && truthy (get_field b "email"))%bool eqn:Hv.
    + destruct (post_user_valid st b now pub Hv) as (n & e & Hn & He & Hp).
      rewrite Hp. cbn [fst users nextId]. rewrite Hn, He in Hv. apply andb_true_iff in Hv as [Tn Te].
      split.
      * cbn. rewrite map_app. apply NoDup_app; [assumption | repeat constructor; auto |].
        intros a Ha [Heq|[]]. simpl in Heq. subst a.
        apply in_map_iff in Ha as (u & Hid & Hu).
        rewrite Forall_forall in Hf. destruct (Hf u Hu) as [Hlt _]. lia.
      * apply Forall_app. split.
        -- eapply Forall_impl; [|exact Hf]. intros u (H1 & H2 & H3).
           unfold user_ok. cbn. repeat split; auto. lia.
        -- constructor; [|constructor]. unfold user_ok; cbn. split; [lia | auto].
    + rewrite (post_user_invalid st b now pub Hv). split; assumption.
  - destruct (find (id_matches (parseInt seg)) (users st)) as [old|] eqn:Hfind.
    + destruct (put_user_found st seg b now old Hfind) as (l1 & l2 & Hu & Hp).
      rewrite Hp. cbn [fst users nextId]. rewrite Hu in Hd, Hf. split.
      * cbn. rewrite map_app in Hd |- *. exact Hd.
      * apply Forall_app in Hf as [F1 F2]. inversion F2 as [|? ? [H1 [H2 H3]] F3]; subst.
        cbn. apply Forall_app. split; [exact F1|]. constructor; [|exact F3].
        unfold user_ok, updated; simpl. split; [exact H1|].
        split; apply js_or_truthy; assumption.
    + rewrite (put_user_absent st seg b now Hfind). split; assumption.
  - destruct (find (id_matches (parseInt seg)) (users st)) as [old|] eqn:Hfind.
    + destruct (delete_user_found st seg old Hfind) as (l1 & l2 & Hu & Hp).
      rewrite Hp. cbn [fst users nextId]. rewrite Hu in Hd, Hf. split.
      * cbn. rewrite map_app in Hd |- *. simpl in Hd. exact (NoDup_remove_1 _ _ _ Hd).
      * apply Forall_app in Hf as [F1 F2]. inversion F2; subst.
        cbn. apply Forall_app. split; assumption.
    + rewrite (delete_user_absent st seg Hfind). split; assumption.
Qed.

Lemma reachable_inv (st : state) : reachable st -> store_inv st.
Proof.
  induction 1; [exact store_inv_init | apply store_inv_step; assumption].
Qed.

Lemma find_id_present (st : state) (u : user) (seg : string) :
  reachable st -> In u (users st) -> parseInt seg = Some (id u) ->
  find (id_matches (parseInt seg)) (users st) = Some u.
Proof.
  intros Hr Hin Hs. destruct (reachable_inv st Hr) as [Hd _].
  rewrite Hs. apply find_id_unique; assumption.
Qed.

Lemma find_id_none (st : state) (seg : string) :
  (forall u, In u (users st) -> parseInt seg <> Some (id u)) ->
  find (id_matches (parseInt seg)) (users st) = None.
Proof.
  intro H. destruct (find (id_matches (parseInt seg)) (users st)) as [v|] eqn:Hf;
    [|reflexivity].
  apply find_some in Hf as [Hin Hm]. exfalso. apply (H v Hin).
  unfold id_matches in Hm. destruct (parseInt seg); [|discriminate].
  apply Z.eqb_eq in Hm. rewrite Hm. reflexivity.
Qed.

(** *** Updating a user *)

(** C5: in any reachable store, PUT /api/users/:id on the id of a stored
    record replaces that record in place and nothing else: [id] and
    [createdAt] are kept, [updatedAt] is stamped, [name] and [email] take the
    body's value when it is given (truthy) and keep the old one otherwise, in
    particular when the field is missing.  When no stored record has the id,
    the answer is 404 and the store is unchanged. *)
Theorem put_user_frame (st : state) (b : jval) (now : string) (Hr : reachable st) :
  (forall seg u, In u (users st) -> parseInt seg = Some (id u) ->
     exists l1 l2 nu,
       users st = l1 ++ u :: l2 /\
       put_user st seg b now =
         (mkState (l1 ++ nu :: l2) (nextId st) (nats st),
          [ERespond (json_resp 200 (user_to_json nu))]) /\
       id nu = id u /\ createdAt nu = createdAt u /\ updatedAt nu = Some now /\
       name nu = js_or (get_field b "name") (name u) /\
       email nu = js_or (get_field b "email") (email u) /\
       (get_field b "name" = None -> name nu = name u) /\
       (get_field b "email" = None -> email nu = email u)) /\
  (forall seg, (forall u, In u (users st) -> parseInt seg <> Some (id u)) ->
     put_user st seg b now = (st, [ERespond not_found])).
Proof.
  split.
  - intros seg u Hin Hs.
    destruct (put_user_found st seg b now u (find_id_present st u seg Hr Hin Hs))
      as (l1 & l2 & Hu & Hp).
    exists l1, l2, (updated u b now).
    unfold updated at 3 4 5 6 7 8 9. cbn.
    repeat split; auto; intro Hnone; rewrite Hnone; reflexivity.
  - intros seg H. apply put_user_absent, find_id_none, H.
Qed.

(** *** Deleting a user *)

Lemma filter_keep_all (f : user -> bool) (l : list user) :
  (forall v, In v l -> f v = true) -> filter f l = l.
Proof.
  induction l as [|v t IH]; intro H; simpl; [reflexivity|].
  rewrite (H v (or_introl eq_refl)). f_equal. apply IH. intros w Hw. apply H. right. exact Hw.
Qed.

(** An id that is not stored and lies below [nextId] is never stored again. *)
Definition id_retired (k : Z) (st : state) : Prop :=
  ~ In k (map id (users st)) /\ k < nextId st.

Lemma id_retired_step (k : Z) (st : state) (o : op) :
  id_retired k st -> id_retired k (fst (step st o)).
Proof.
  intros [Hn Hlt]. destruct o; simpl.
  - split; assumption.
  - split; assumption.
  - unfold get_user. destruct (find _ _); split; assumption.
  - destruct (truthy (get_field b "name") && truthy (get_field b "email"))%bool eqn:Hv.
    + destruct (post_user_valid st b now pub Hv) as (n & e & _ & _ & Hp).
      rewrite Hp. unfold id_retired. cbn. rewrite map_app. split; [|lia].
      intro Hin. apply in_app_or in Hin as [Hin|[Heq|[]]]; [contradiction|].
      simpl in Heq. lia.
    + rewrite (post_user_invalid st b now pub Hv). split; assumption.
  - destruct (find (id_matches (parseInt seg)) (users st)) as [old|] eqn:Hf.
    + destruct (put_user_found st seg b now old Hf) as (l1 & l2 & Hu & Hp).
      rewrite Hp. unfold id_retired. cbn. rewrite Hu in Hn.
      rewrite map_app in Hn |- *. split; assumption.
    + rewrite (put_user_absent st seg b now Hf). split; assumption.
  - destruct (find (id_matches (parseInt seg)) (users st)) as [old|] eqn:Hf.
    + destruct (delete_user_found st seg old Hf) as (l1 & l2 & Hu & Hp).
      rewrite Hp. unfold id_retired. cbn. rewrite Hu in Hn.
      rewrite map_app in Hn |- *. split; [|assumption].
      intro Hin. apply Hn. apply in_app_or in Hin as [H|H]; apply in_or_app;
        [left | right; right]; exact H.
    + rewrite (delete_user_absent st seg Hf). split; assumption.
Qed.

Lemma id_retired_run (k : Z) (ops : list op) : forall st,
  id_retired k st -> id_retired k (fst (run st ops)).
Proof.
  induction ops as [|o t IH]; intros st H; simpl; [exact H|].
  destruct (step st o) as [st1 tr1] eqn:Hs.
  destruct (run st1 t) as [st2 tr2] eqn:Hr. simpl.
  pose proof (id_retired_step k st o H) as H1. rewrite Hs in H1.
  specialize (IH st1 H1). rewrite Hr in IH. exact IH.
Qed.

(** C7: in any reachable store, DELETE /api/users/:id on the id of a stored
    record answers 204 with an empty body and removes exactly the records
    with that id (there is only that one); afterwards, whatever requests
    follow, GET /api/users/:id with the same segment answers 404 with
    [{error: "User not found"}]. *)
Theorem delete_user_erases (st : state) (seg : string) (u : user)
  (Hr : reachable st) (Hin : In u (users st)) (Hs : parseInt seg = Some (id u)) :
  let '(st', tr) := delete_user st seg in
  tr = [ERespond (mkResponse 204 None)] /\
  users st' = filter (fun v => negb (id v =? id u)) (users st) /\
  nextId st' = nextId st /\
  (forall ops, get_user (fst (run st' ops)) seg =
               (fst (run st' ops), [ERespond not_found])).
Proof.
  destruct (reachable_inv st Hr) as [Hd Hf].
  destruct (delete_user_found st seg u (find_id_present st u seg Hr Hin Hs))
    as (l1 & l2 & Hu & Hp).
  rewrite Hp. cbn.
  rewrite Hu in Hd. rewrite map_app in Hd. simpl in Hd.
  pose proof (NoDup_remove_2 _ _ _ Hd) as Hnot.
  assert (Hkeep : forall l, (forall v, In v l -> In (id v) (map id l1 ++ map id l2)) ->
            filter (fun v => negb (id v =? id u)) l = l).
  { intros l Hl. apply filter_keep_all. intros v Hv.
    destruct (id v =? id u) eqn:E; [|reflexivity].
    apply Z.eqb_eq in E. exfalso. apply Hnot. rewrite <- E. apply Hl, Hv. }
  split; [reflexivity|]. split.
  - rewrite Hu, filter_app. simpl. rewrite Z.eqb_refl. simpl.
    rewrite !Hkeep; [reflexivity| |];
      intros v Hv; apply in_or_app; [right|left]; apply in_map; exact Hv.
  - split; [reflexivity|]. intro ops.
    assert (Hret : id_retired (id u) (mkState (l1 ++ l2) (nextId st) (nats st))).
    { split; cbn.
      - rewrite map_app. exact Hnot.
      - rewrite Forall_forall in Hf. apply (Hf u Hin). }
    destruct (id_retired_run (id u) ops _ Hret) as [Hn _].
    unfold get_user. rewrite Hs, (find_id_absent _ _ Hn). reflexivity.
Qed.

(** *** Empty strings in an update body *)

(** [delete b[k]] on a parsed body. *)
Definition delete_field (k : string) (b : jval) : jval :=
  match b with
  | JObj fs => JObj (filter (fun kv => negb (String.eqb (fst kv) k)) fs)
  | _ => b
  end.

Lemma get_field_delete_same (k : string) (b : jval) :
  get_field (delete_field k b) k = None.
Proof.
  destruct b as [| | | | |fs]; try reflexivity. simpl.
  induction fs as [|[k' v] t IH]; simpl; [reflexivity|].
  destruct (String.eqb k' k) eqn:E; simpl; [exact IH|].
  rewrite E. exact IH.
Qed.

Lemma get_field_delete_other (k k' : string) (b : jval) :
  k' <> k -> get_field (delete_field k b) k' = get_field b k'.
Proof.
  intro Hne. destruct b as [| | | | |fs]; try reflexivity. simpl.
  induction fs as [|[k1 v] t IH]; simpl; [reflexivity|].
  destruct (String.eqb k1 k) eqn:E; simpl.
  - apply String.eqb_eq in E. subst k1.
    destruct (String.eqb k k') eqn:E'; [apply String.eqb_eq in E'; congruence|].
    exact IH.
  - destruct (String.eqb k1 k'); [reflexivity | exact IH].
Qed.

Lemma put_user_ext (st : state) (seg : string) (b b' : jval) (now : string) :
  (forall x, js_or (get_field b "name") x = js_or (get_field b' "name") x) ->
  (forall x, js_or (get_field b "email") x = js_or (get_field b' "email") x) ->
  put_user st seg b now = put_user st seg b' now.
Proof.
  intros Hn He. unfold put_user.
  destruct (_ =? -1); [reflexivity|].
  destruct (nth_error _ _) as [old|]; [|reflexivity].
  rewrite Hn, He. reflexivity.
Qed.

(** C10: a PUT body field holding the empty string is treated as absent:
    the request has the same effect and response as the body without that
    field, and on a stored id it still answers 200 with [updatedAt] stamped
    and the old value kept.  No reachable store holds an empty name or
    email. *)
Theorem put_user_empty_string_ignored (st : state) (seg : string) (b : jval)
  (now : string) :
  (get_field b "name" = Some (JStr "") ->
     put_user st seg b now = put_user st seg (delete_field "name" b) now) /\
  (get_field b "email" = Some (JStr "") ->
     put_user st seg b now = put_user st seg (delete_field "email" b) now) /\
  (reachable st -> forall u, In u (users st) -> parseInt seg = Some (id u) ->
     exists nu,
       response_of (snd (put_user st seg b now)) = Some (json_resp 200 (user_to_json nu)) /\
       updatedAt nu = Some now /\
       (get_field b "name" = Some (JStr "") -> name nu = name u) /\
       (get_field b "email" = Some (JStr "") -> email nu = email u)) /\
  (reachable st -> Forall (fun v => name v <> JStr "" /\ email v <> JStr "") (users st)).
Proof.
  split; [|split; [|split]].
  - intro H. apply put_user_ext; intro x.
    + rewrite H, get_field_delete_same. reflexivity.
    + rewrite get_field_delete_other by discriminate. reflexivity.
  - intro H. apply put_user_ext; intro x.
    + rewrite get_field_delete_other by discriminate. reflexivity.
    + rewrite H, get_field_delete_same. reflexivity.
  - intros Hr u Hin Hs.
    destruct (put_user_found st seg b now u (find_id_present st u seg Hr Hin Hs))
      as (l1 & l2 & _ & Hp).
    exists (updated u b now). rewrite Hp. cbn.
    split; [reflexivity|]. split; [reflexivity|].
    split; intro H; rewrite H; reflexivity.
  - intro Hr. destruct (reachable_inv st Hr) as [_ Hf].
    eapply Forall_impl; [|exact Hf]. intros v (_ & Hn & He).
    split; intro Heq; [rewrite Heq in Hn | rewrite Heq in He]; discriminate.
Qed.

(** *** Path segments *)

(** The spec's reading of a numeric segment: a non-empty run of decimal
    digits. *)
Fixpoint all_digits (s : string) : bool :=
  match s with
  | EmptyString => true
  | String c t =>
      let n := nat_of_ascii c in
      (Nat.leb 48 n && Nat.leb n 57 && all_digits t)%bool
  end.

Definition numeric_segment (s : string) : bool :=
  match s with
  | EmptyString => false
  | _ => all_digits s
  end.

Definition one_user_state : state := fst (step init_state (OpPost john "t0" PubOk)).

(** C6 (counterexample): the non-numeric segment "1abc" is read by
    [parseInt] as 1, so GET /api/users/1abc returns the record with id 1. *)
Lemma get_user_numeric_prefix_matches :
  numeric_segment "1abc" = false /\
  parseInt "1abc" = Some 1 /\
  snd (get_user one_user_state "1abc") =
    [ERespond (json_resp 200 (user_to_json
       (mkUser 1 (JStr "John Doe") (JStr "john@example.com") "t0" None)))].
Proof. vm_compute. auto. Qed.

Lemma find_nan (us : list user) : find (id_matches None) us = None.
Proof. induction us as [|v t IH]; simpl; [reflexivity | exact IH]. Qed.

(** C6 (amended): GET, PUT and DELETE on /api/users/:id depend on the
    segment only through [parseInt]: two segments with the same [parseInt]
    value behave identically (so "1abc" acts as "1"), and a segment for which
    [parseInt] gives NaN (no digit after optional white space, sign and
    0x prefix) is answered with 404, the store unchanged. *)
Theorem id_segment_via_parseInt (st : state) (seg1 seg2 : string) (b : jval)
  (now : string) (H : parseInt seg1 = parseInt seg2) :
  get_user st seg1 = get_user st seg2 /\
  put_user st seg1 b now = put_user st seg2 b now /\
  delete_user st seg1 = delete_user st seg2 /\
  (parseInt seg1 = None ->
     get_user st seg1 = (st, [ERespond not_found]) /\
     put_user st seg1 b now = (st, [ERespond not_found]) /\
     delete_user st seg1 = (st, [ERespond not_found])).
Proof.
  unfold get_user, put_user, delete_user. rewrite H.
  split; [reflexivity|]. split; [reflexivity|]. split; [reflexivity|].
  intro Hn. rewrite Hn, find_nan.
  pose proof (findIndex_spec (id_matches None) (users st)) as Hs.
  rewrite find_nan in Hs. rewrite Hs. simpl. auto.
Qed.

(** ** Witnesses: the theorems with hypotheses, applied at concrete inputs *)

Lemma one_user_reachable : reachable one_user_state.
Proof. exact (reach_step _ _ reach_init). Qed.

Definition john_record : user :=
  mkUser 1 (JStr "John Doe") (JStr "john@example.com") "t0" None.

Lemma post_user_publish_then_respond_witness :
  (truthy (get_field john "name") && truthy (get_field john "email"))%bool = true /\
  let tr := snd (post_user connected_state john "t0" PubOk) in
  match nats connected_state with
  | Some _ => exists p s r, index_where is_publish tr = Some p /\
                            index_where is_settle tr = Some s /\
                            index_where is_respond tr = Some r /\ (p < s < r)%nat
  | None => Forall (fun e => is_publish e = false /\ is_settle e = false) tr /\
            index_where is_respond tr = Some O
  end.
Proof.
  split; [reflexivity|].
  apply (post_user_publish_then_respond connected_state john "t0" PubOk).
  reflexivity.
Defined.

Lemma connect_failure_keeps_serving_witness :
  nats init_state = None /\
  let '(c, st1, _) := initNATS init_state (ConnFail "timeout") in
  c = Normal /\ nats st1 = None /\
  forall ops,
    let stn := fst (run st1 ops) in
    (forall b now pub,
       (truthy (get_field b "name") && truthy (get_field b "email"))%bool = true ->
       option_map status (response_of (snd (post_user stn b now pub))) = Some 201) /\
    response_of (snd (ready stn)) =
      Some (json_resp 200 (JObj [("status", JStr "ready");
                                 ("natsConnected", JBool false)])).
Proof.
  split; [reflexivity|].
  apply (connect_failure_keeps_serving init_state "timeout"). reflexivity.
Defined.

Lemma put_user_frame_witness :
  reachable one_user_state /\
  let b := JObj [("name", JStr "New")] in
  (forall seg u, In u (users one_user_state) -> parseInt seg = Some (id u) ->
     exists l1 l2 nu,
       users one_user_state = l1 ++ u :: l2 /\
       put_user one_user_state seg b "t1" =
         (mkState (l1 ++ nu :: l2) (nextId one_user_state) (nats one_user_state),
          [ERespond (json_resp 200 (user_to_json nu))]) /\
       id nu = id u /\ createdAt nu = createdAt u /\ updatedAt nu = Some "t1" /\
       name nu = js_or (get_field b "name") (name u) /\
       email nu = js_or (get_field b "email") (email u) /\
       (get_field b "name" = None -> name nu = name u) /\
       (get_field b "email" = None -> email nu = email u)) /\
  (forall seg, (forall u, In u (users one_user_state) -> parseInt seg <> Some (id u)) ->
     put_user one_user_state seg b "t1" = (one_user_state, [ERespond not_found])).
Proof.
  split; [exact one_user_reachable|].
  apply (put_user_frame one_user_state (JObj [("name", JStr "New")]) "t1").
  exact (reach_step _ _ reach_init).
Defined.

Lemma delete_user_erases_witness :
  reachable one_user_state /\ In john_record (users one_user_state) /\
  parseInt "1" = Some (id john_record) /\
  let '(st', tr) := delete_user one_user_state "1" in
  tr = [ERespond (mkResponse 204 None)] /\
  users st' = filter (fun v => negb (id v =? id john_record)) (users one_user_state) /\
  nextId st' = nextId one_user_state /\
  (forall ops, get_user (fst (run st' ops)) "1" =
               (fst (run st' ops), [ERespond not_found])).
Proof.
  split; [exact one_user_reachable|].
  split; [left; reflexivity|]. split; [reflexivity|].
  apply (delete_user_erases one_user_state "1" john_record).
  - exact (reach_step _ _ reach_init).
  - left; reflexivity.
  - reflexivity.
Defined.

Lemma id_segment_via_parseInt_witness :
  parseInt "1abc" = parseInt "1" /\
  get_user one_user_state "1abc" = get_user one_user_state "1" /\
  put_user one_user_state "1abc" john "t1" = put_user one_user_state "1" john "t1" /\
  delete_user one_user_state "1abc" = delete_user one_user_state "1" /\
  (parseInt "1abc" = None ->
     get_user one_user_state "1abc" = (one_user_state, [ERespond not_found]) /\
     put_user one_user_state "1abc" john "t1" = (one_user_state, [ERespond not_found]) /\
     delete_user one_user_state "1abc" = (one_user_state, [ERespond not_found])).
Proof.
  split; [reflexivity|].
  apply (id_segment_via_parseInt one_user_state "1abc" "1" john "t1").
  reflexivity.
Defined.

(** ** Further properties of the handlers *)

Lemma find_split (p : user -> bool) (us : list user) (x : user) :
  find p us = Some x -> exists l1 l2, us = l1 ++ x :: l2 /\ find p l1 = None /\ p x = true.
Proof.
  induction us as [|v t IH]; simpl; [discriminate|].
  destruct (p v) eqn:E.
  - intro H. injection H as <-. exists [], t. auto.
  - intro H. destruct (IH H) as (l1 & l2 & -> & H1 & H2).
    exists (v :: l1), l2. simpl. rewrite E. auto.
Qed.

Lemma find_app_hit (p : user -> bool) (l1 l2 : list user) (x : user) :
  find p l1 = None -> p x = true -> find p (l1 ++ x :: l2) = Some x.
Proof.
  induction l1 as [|v t IH]; simpl; intros H1 H2; [rewrite H2; reflexivity|].
  destruct (p v); [discriminate|]. apply IH; assumption.
Qed.

Lemma findIndex_split (p : user -> bool) (l1 l2 : list user) (x : user) :
  find p l1 = None -> p x = true -> findIndex p (l1 ++ x :: l2) = Z.of_nat (length l1).
Proof.
  induction l1 as [|v t IH]; simpl; intros H1 H2; [rewrite H2; reflexivity|].
  destruct (p v); [discriminate|].
  rewrite (IH H1 H2). destruct (Z.of_nat (length t) =? -1) eqn:E;
    [apply Z.eqb_eq in E | apply Z.eqb_neq in E]; lia.
Qed.

Lemma nth_error_middle (l1 l2 : list user) (x : user) :
  nth_error (l1 ++ x :: l2) (length l1) = Some x.
Proof. induction l1 as [|v t IH]; simpl; [reflexivity | exact IH]. Qed.

Lemma id_matches_same_id (k : option Z) (u v : user) :
  id u = id v -> id_matches k u = id_matches k v.
Proof. intro H. unfold id_matches. rewrite H. reflexivity. Qed.

(** PUT on a store split at the first record matching the segment. *)
Lemma put_user_at (st : state) (seg : string) (b : jval) (now : string)
  (l1 l2 : list user) (x : user) :
  users st = l1 ++ x :: l2 ->
  find (id_matches (parseInt seg)) l1 = None ->
  id_matches (parseInt seg) x = true ->
  put_user st seg b now =
    (mkState (l1 ++ updated x b now :: l2) (nextId st) (nats st),
     [ERespond (json_resp 200 (user_to_json (updated x b now)))]).
Proof.
  intros Hu H1 H2. unfold put_user. rewrite Hu, (findIndex_split _ _ _ _ H1 H2).
  destruct (Z.of_nat (length l1) =? -1) eqn:E; [apply Z.eqb_eq in E; lia|].
  rewrite Nat2Z.id, nth_error_middle, replace_at_split. reflexivity.
Qed.

Lemma js_or_idem (a : option jval) (x : jval) : js_or a (js_or a x) = js_or a x.
Proof. destruct a as [v|]; [unfold js_or; destruct (truthy (Some v))|]; reflexivity. Qed.

(** X1: repeating a PUT with the same body (and the same clock reading)
    changes nothing more: the store and the response are those of the first
    PUT. *)
Theorem put_user_idempotent (st : state) (seg : string) (b : jval) (now : string) :
  put_user (fst (put_user st seg b now)) seg b now =
    put_user st seg b now.
Proof.
  destruct (find (id_matches (parseInt seg)) (users st)) as [x|] eqn:Hf.
  - destruct (find_split _ _ _ Hf) as (l1 & l2 & Hu & H1 & H2).
    rewrite (put_user_at st seg b now l1 l2 x Hu H1 H2). cbn [fst].
    assert (H2' : id_matches (parseInt seg) (updated x b now) = true).
    { rewrite (id_matches_same_id _ _ x); [exact H2 | reflexivity]. }
    rewrite (put_user_at (mkState (l1 ++ updated x b now :: l2) (nextId st) (nats st))
               seg b now l1 l2 _ eq_refl H1 H2'). cbn.
    unfold updated at 1 3. cbn. rewrite !js_or_idem. reflexivity.
  - rewrite (put_user_absent st seg b now Hf). cbn [fst].
    rewrite (put_user_absent st seg b now Hf). reflexivity.
Qed.

(** X2: PUT /api/users/:id answers with exactly one response, 200 or 404: the
    fallback 500 for a [findIndex] result out of range is never taken. *)
Theorem put_user_200_or_404 (st : state) (seg : string) (b : jval) (now : string) :
  exists r, snd (put_user st seg b now) = [ERespond r] /\
            (status r = 200 \/ status r = 404).
Proof.
  destruct (find (id_matches (parseInt seg)) (users st)) as [x|] eqn:Hf.
  - destruct (find_split _ _ _ Hf) as (l1 & l2 & Hu & H1 & H2).
    rewrite (put_user_at st seg b now l1 l2 x Hu H1 H2).
    eexists. split; [reflexivity | left; reflexivity].
  - rewrite (put_user_absent st seg b now Hf).
    eexists. split; [reflexivity | right; reflexivity].
Qed.

(** *** Order and range of the stored ids *)

Definition ids_ordered (st : state) : Prop :=
  1 <= nextId st /\
  StronglySorted Z.lt (map id (users st)) /\
  Forall (fun k => 1 <= k < nextId st) (map id (users st)).

Lemma StronglySorted_snoc (l : list Z) (y : Z) :
  StronglySorted Z.lt l -> Forall (fun k => k < y) l -> StronglySorted Z.lt (l ++ [y]).
Proof.
  induction l as [|a t IH]; intros Hs Hf; simpl.
  - repeat constructor.
  - inversion Hs as [|? ? Hs' Ha]; subst. inversion Hf as [|? ? Hy Hf']; subst.
    constructor; [apply IH; assumption|].
    apply Forall_app. split; [exact Ha | constructor; [exact Hy | constructor]].
Qed.

Lemma StronglySorted_remove (l1 l2 : list Z) (x : Z) :
  StronglySorted Z.lt (l1 ++ x :: l2) -> StronglySorted Z.lt (l1 ++ l2).
Proof.
  induction l1 as [|a t IH]; intro Hs; simpl in *.
  - inversion Hs; assumption.
  - inversion Hs as [|? ? Hs' Ha]; subst. constructor; [apply IH; assumption|].
    apply Forall_app in Ha as [Ha1 Ha2]. inversion Ha2; subst.
    apply Forall_app. split; assumption.
Qed.

Lemma ids_ordered_step (st : state) (o : op) :
  ids_ordered st -> ids_ordered (fst (step st o)).
Proof.
  intros (H0 & Hs & Hf). destruct o; simpl.
  - split; [|split]; assumption.
  - split; [|split]; assumption.
  - unfold get_user. destruct (find _ _); split; [|split| |split]; assumption.
  - destruct (truthy (get_field b "name") && truthy (get_field b "email"))%bool eqn:Hv.
    + destruct (post_user_valid st b now pub Hv) as (n & e & _ & _ & Hp).
      rewrite Hp. unfold ids_ordered. cbn. rewrite map_app. cbn. split; [lia|]. split.
      * apply StronglySorted_snoc; [exact Hs|].
        eapply Forall_impl; [|exact Hf]. intros k Hk. cbv beta in Hk. lia.
      * apply Forall_app. split.
        -- eapply Forall_impl; [|exact Hf]. intros k Hk. cbv beta in Hk |- *. lia.
        -- constructor; [cbn; lia | constructor].
    + rewrite (post_user_invalid st b now pub Hv). split; [|split]; assumption.
  - destruct (find (id_matches (parseInt seg)) (users st)) as [old|] eqn:Hfd.
    + destruct (put_user_found st seg b now old Hfd) as (l1 & l2 & Hu & Hp).
      rewrite Hp. unfold ids_ordered. cbn. rewrite Hu in Hs, Hf.
      rewrite map_app in Hs, Hf |- *. split; [|split]; assumption.
    + rewrite (put_user_absent st seg b now Hfd). split; [|split]; assumption.
  - destruct (find (id_matches (parseInt seg)) (users st)) as [old|] eqn:Hfd.
    + destruct (delete_user_found st seg old Hfd) as (l1 & l2 & Hu & Hp).
      rewrite Hp. unfold ids_ordered. cbn. rewrite Hu in Hs, Hf.
      rewrite map_app in Hs, Hf |- *. simpl in Hs, Hf. split; [assumption|]. split.
      * exact (StronglySorted_remove _ _ _ Hs).
      * apply Forall_app in Hf as [F1 F2]. inversion F2; subst.
        apply Forall_app. split; assumption.
    + rewrite (delete_user_absent st seg Hfd). split; [|split]; assumption.
Qed.

Lemma reachable_ids_ordered (st : state) : reachable st -> ids_ordered st.
Proof.
  induction 1.
  - split; [cbn; lia | split; constructor].
  - apply ids_ordered_step; assumption.
Qed.

(** X3: in every reachable store the records are listed (GET /api/users) in
    strictly increasing id order, every id is at least 1 and below
    [nextId]. *)
Theorem reachable_ids_sorted (st : state) (Hr : reachable st) :
  Sorted Z.lt (map id (users st)) /\
  Forall (fun u => 1 <= id u < nextId st) (users st).
Proof.
  destruct (reachable_ids_ordered st Hr) as (_ & Hs & Hf). split.
  - apply StronglySorted_Sorted. exact Hs.
  - rewrite Forall_map in Hf. exact Hf.
Qed.

(** *** Round trips *)

(** X4: after a valid POST /api/users in a reachable store, GET on the new id
    answers 200 with the same JSON body as the POST's 201 response. *)
Theorem post_then_get (st : state) (b : jval) (now : string) (pub : pub_outcome)
  (seg : string) (Hr : reachable st)
  (Hv : (truthy (get_field b "name") && truthy (get_field b "email"))%bool = true)
  (Hs : parseInt seg = Some (nextId st)) :
  exists body,
    response_of (snd (post_user st b now pub)) = Some (json_resp 201 body) /\
    snd (get_user (fst (post_user st b now pub)) seg) = [ERespond (json_resp 200 body)].
Proof.
  destruct (post_user_valid st b now pub Hv) as (n & e & Hn & He & Hp).
  assert (Hr' : reachable (fst (post_user st b now pub)))
    by exact (reach_step st (OpPost b now pub) Hr).
  rewrite Hp in Hr' |- *. cbn [fst snd].
  set (u := mkUser (nextId st) n e now None).
  exists (user_to_json u). split.
  - apply response_of_app. intro r'. apply publish_trace_no_response.
  - assert (Hin : In u (users (mkState (users st ++ [u]) (nextId st + 1) (nats st)))).
    { cbn. apply in_or_app. right. left. reflexivity. }
    assert (Hs' : parseInt seg = Some (id u)) by exact Hs.
    cbn [fst] in Hr'.
    pose proof (find_id_present _ u seg Hr' Hin Hs') as Hf.
    unfold get_user. cbn [users fst snd] in Hf |- *. unfold u in *. rewrite Hf. reflexivity.
Qed.

(** X5: after PUT /api/users/:id on a stored id of a reachable store, GET on
    the same segment returns exactly the PUT's response. *)
Theorem put_then_get (st : state) (seg : string) (b : jval) (now : string) (u : user)
  (Hr : reachable st) (Hin : In u (users st)) (Hs : parseInt seg = Some (id u)) :
  snd (get_user (fst (put_user st seg b now)) seg) = snd (put_user st seg b now).
Proof.
  destruct (put_user_found st seg b now u (find_id_present st u seg Hr Hin Hs))
    as (l1 & l2 & _ & Hp).
  assert (Hr' : reachable (fst (put_user st seg b now)))
    by exact (reach_step st (OpPut seg b now) Hr).
  rewrite Hp in Hr' |- *. cbn [fst snd].
  assert (Hin' : In (updated u b now)
                    (users (mkState (l1 ++ updated u b now :: l2) (nextId st) (nats st)))).
  { cbn. apply in_or_app. right. left. reflexivity. }
  cbn [fst] in Hr'.
  pose proof (find_id_present _ (updated u b now) seg Hr' Hin' Hs) as Hf.
  unfold get_user. cbn [users fst snd] in Hf |- *. rewrite Hf. reflexivity.
Qed.

(** *** Store size and responses *)

(** Number of responses with status [s] in a trace. *)
Definition count_status (s : Z) (tr : list effect) : nat :=
  length (filter (fun e => match e with ERespond r => Z.eqb (status r) s | _ => false end) tr).

Lemma count_status_app (s : Z) (t1 t2 : list effect) :
  count_status s (t1 ++ t2) = (count_status s t1 + count_status s t2)%nat.
Proof. unfold count_status. rewrite filter_app, length_app. reflexivity. Qed.

Lemma step_size (st : state) (o : op) :
  (length (users (fst (step st o))) + count_status 204 (snd (step st o)) =
   length (users st) + count_status 201 (snd (step st o)))%nat.
Proof.
  destruct o; simpl.
  - reflexivity.
  - reflexivity.
  - unfold get_user. destruct (find _ _); reflexivity.
  - destruct (truthy (get_field b "name") && truthy (get_field b "email"))%bool eqn:Hv.
    + destruct (post_user_valid st b now pub Hv) as (n & e & _ & _ & Hp).
      rewrite Hp. cbn [fst snd users]. rewrite !count_status_app, length_app.
      destruct (nats st); [destruct pub|]; cbn; lia.
    + rewrite (post_user_invalid st b now pub Hv). reflexivity.
  - destruct (find (id_matches (parseInt seg)) (users st)) as [old|] eqn:Hfd.
    + destruct (put_user_found st seg b now old Hfd) as (l1 & l2 & Hu & Hp).
      rewrite Hp, Hu. cbn [fst snd users]. rewrite !length_app. reflexivity.
    + rewrite (put_user_absent st seg b now Hfd). reflexivity.
  - destruct (find (id_matches (parseInt seg)) (users st)) as [old|] eqn:Hfd.
    + destruct (delete_user_found st seg old Hfd) as (l1 & l2 & Hu & Hp).
      rewrite Hp, Hu. cbn [fst snd users]. rewrite !length_app. cbn. lia.
    + rewrite (delete_user_absent st seg Hfd). reflexivity.
Qed.

Lemma run_size (ops : list op) : forall st,
  (length (users (fst (run st ops))) + count_status 204 (snd (run st ops)) =
   length (users st) + count_status 201 (snd (run st ops)))%nat.
Proof.
  induction ops as [|o t IH]; intro st; simpl; [reflexivity|].
  destruct (step st o) as [st1 tr1] eqn:Hs.
  destruct (run st1 t) as [st2 tr2] eqn:Hr. cbn [fst snd].
  pose proof (step_size st o) as H1. rewrite Hs in H1. cbn [fst snd] in H1.
  specialize (IH st1). rewrite Hr in IH. cbn [fst snd] in IH.
  rewrite !count_status_app. lia.
Qed.

(** X6: starting from the empty store, after any sequence of requests the
    number of stored records (the [count] of GET /api/users) plus the number
    of 204 answers (successful deletes) equals the number of 201 answers
    (successful creates). *)
Theorem store_size_from_responses (ops : list op) :
  (length (users (fst (run init_state ops))) + count_status 204 (snd (run init_state ops)) =
   count_status 201 (snd (run init_state ops)))%nat.
Proof. exact (run_size ops init_state). Qed.

(** *** Failed requests *)

(** X7: a request answered with an error status (400, 404 or 500) leaves the
    store, the id counter and the adapter handle exactly as they were. *)
Theorem error_response_no_change (st : state) (o : op) (r : response)
  (Hr : response_of (snd (step st o)) = Some r) (Hs : 400 <= status r) :
  fst (step st o) = st.
Proof.
  destruct o; simpl in Hr |- *.
  - reflexivity.
  - reflexivity.
  - unfold get_user in *. destruct (find _ _); reflexivity.
  - destruct (truthy (get_field b "name") && truthy (get_field b "email"))%bool eqn:Hv.
    + destruct (post_user_valid st b now pub Hv) as (n & e & _ & _ & Hp).
      rewrite Hp in Hr. cbn [snd] in Hr.
      rewrite response_of_app in Hr by (intro r'; apply publish_trace_no_response).
      injection Hr as <-. cbn in Hs. lia.
    + rewrite (post_user_invalid st b now pub Hv). reflexivity.
  - destruct (find (id_matches (parseInt seg)) (users st)) as [old|] eqn:Hfd.
    + destruct (put_user_found st seg b now old Hfd) as (l1 & l2 & _ & Hp).
      rewrite Hp in Hr. cbn in Hr. injection Hr as <-. cbn in Hs. lia.
    + rewrite (put_user_absent st seg b now Hfd). reflexivity.
  - destruct (find (id_matches (parseInt seg)) (users st)) as [old|] eqn:Hfd.
    + destruct (delete_user_found st seg old Hfd) as (l1 & l2 & _ & Hp).
      rewrite Hp in Hr. cbn in Hr. injection Hr as <-. cbn in Hs. lia.
    + rewrite (delete_user_absent st seg Hfd). reflexivity.
Qed.

(** *** The published event *)

Lemma post_user_publishes_body (st : state) (c : nats_client) (b : jval)
  (now : string) (pub : pub_outcome) (Hc : nats st = Some c)
  (Hv : (truthy (get_field b "name") && truthy (get_field b "email"))%bool = true) :
  exists p, In (EPublish "user.created" p) (snd (post_user st b now pub)) /\
            response_of (snd (post_user st b now pub)) = Some (json_resp 201 p).
Proof.
  destruct (post_user_valid st b now pub Hv) as (n & e & _ & _ & Hp).
  rewrite Hp. cbn [snd].
  exists (user_to_json (mkUser (nextId st) n e now None)). split.
  - rewrite Hc. left. reflexivity.
  - apply response_of_app. intro r'. apply publish_trace_no_response.
Qed.

(** X8: with the adapter connected, a valid create publishes on topic
    [user.created] exactly the JSON of the record that the 201 response
    carries. *)
Theorem published_payload_is_response (st : state) (c : nats_client) (b : jval)
  (now : string) (pub : pub_outcome) (Hc : nats st = Some c)
  (Hv : (truthy (get_field b "name") && truthy (get_field b "email"))%bool = true) :
  exists p, In (EPublish "user.created" p) (snd (post_user st b now pub)) /\
            response_of (snd (post_user st b now pub)) = Some (json_resp 201 p).
Proof.
  exact (post_user_publishes_body st c b now pub Hc Hv).
Qed.

(** *** Decimal ids in the path *)

(** A list of decimal digits written out, most significant first. *)
Definition string_of_digits (ds : list Z) : string :=
  fold_right (fun d s => String (ascii_of_nat (48 + Z.to_nat d)) s) EmptyString ds.

Lemma digit_cases (d : Z) : 0 <= d < 10 ->
  d = 0 \/ d = 1 \/ d = 2 \/ d = 3 \/ d = 4 \/ d = 5 \/ d = 6 \/ d = 7 \/ d = 8 \/ d = 9.
Proof. lia. Qed.

Lemma digit_char_val (d : Z) : 0 <= d < 10 ->
  digit_val (ascii_of_nat (48 + Z.to_nat d)) = Some d /\
  Ascii.eqb (ascii_of_nat (48 + Z.to_nat d)) "x" = false /\
  Ascii.eqb (ascii_of_nat (48 + Z.to_nat d)) "X" = false.
Proof.
  intro H.
  destruct (digit_cases d H) as [E|[E|[E|[E|[E|[E|[E|[E|[E|E] ] ] ] ] ] ] ] ];
    subst d; (split; [reflexivity | split; reflexivity]).
Qed.

Lemma digit_prefix_cons (r : Z) (c : ascii) (t : string) :
  digit_prefix r (String c t) =
  match digit_val c with
  | Some d => if d <? r then d :: digit_prefix r t else []
  | None => []
  end.
Proof. reflexivity. Qed.

Lemma digit_prefix_digits (ds : list Z) :
  Forall (fun d => 0 <= d < 10) ds -> digit_prefix 10 (string_of_digits ds) = ds.
Proof.
  induction ds as [|d t IH]; intro Hf; [reflexivity|].
  inversion Hf as [|? ? Hd Ht]; subst.
  change (string_of_digits (d :: t))
    with (String (ascii_of_nat (48 + Z.to_nat d)) (string_of_digits t)).
  rewrite digit_prefix_cons. rewrite (proj1 (digit_char_val d Hd)).
  destruct (Z.ltb_spec d 10); [|lia]. rewrite IH by exact Ht. reflexivity.
Qed.

Lemma parseInt_digit_head (d : Z) (rest : string) :
  0 <= d < 10 ->
  (forall x t, rest = String x t -> Ascii.eqb x "x" = false /\ Ascii.eqb x "X" = false) ->
  parseInt (String (ascii_of_nat (48 + Z.to_nat d)) rest) =
    match digit_prefix 10 (String (ascii_of_nat (48 + Z.to_nat d)) rest) with
    | [] => None
    | ds => Some (1 * digits_value 10 ds)
    end.
Proof.
  intros Hd Hx.
  destruct (digit_cases d Hd) as [E|[E|[E|[E|[E|[E|[E|[E|[E|E] ] ] ] ] ] ] ] ];
    subst d; try reflexivity.
  destruct rest as [|x t]; [reflexivity|].
  destruct (Hx x t eq_refl) as [H1 H2].
  change (ascii_of_nat (48 + Z.to_nat 0)) with "0"%char.
  unfold parseInt. simpl. rewrite H1, H2. reflexivity.
Qed.

(** [parseInt] reads a non-empty string of decimal digits back as its value. *)
Lemma parseInt_digits (ds : list Z) :
  ds <> [] -> Forall (fun d => 0 <= d < 10) ds ->
  parseInt (string_of_digits ds) = Some (digits_value 10 ds).
Proof.
  intros Hne Hf. destruct ds as [|d t]; [contradiction|].
  inversion Hf as [|? ? Hd Ht]; subst.
  change (string_of_digits (d :: t))
    with (String (ascii_of_nat (48 + Z.to_nat d)) (string_of_digits t)).
  rewrite parseInt_digit_head by
    (exact Hd || (intros x s Hs; destruct t as [|d' t']; [discriminate|];
                  injection Hs as <- _; inversion Ht; subst;
                  apply (proj2 (digit_char_val d' ltac:(assumption))))).
  change (String (ascii_of_nat (48 + Z.to_nat d)) (string_of_digits t))
    with (string_of_digits (d :: t)).
  rewrite digit_prefix_digits by exact Hf. rewrite Z.mul_1_l. reflexivity.
Qed.

Lemma string_of_digits_app (a b : list Z) :
  string_of_digits (a ++ b) = String.append (string_of_digits a) (string_of_digits b).
Proof.
  induction a as [|d t IH]; [reflexivity|].
  exact (f_equal (String (ascii_of_nat (48 + Z.to_nat d))) IH).
Qed.

Lemma digits_value_snoc (ds : list Z) (d : Z) :
  digits_value 10 (ds ++ [d]) = digits_value 10 ds * 10 + d.
Proof. unfold digits_value. rewrite fold_left_app. reflexivity. Qed.

Lemma string_append_empty (s : string) : String.append s "" = s.
Proof. induction s as [|c t IH]; [reflexivity|]. cbn. rewrite IH. reflexivity. Qed.

Lemma to_dec_aux_digits (f : nat) (n : Z) (acc : list Z) :
  0 <= n < 10 ^ Z.of_nat (S f) ->
  exists ds, ds <> [] /\ Forall (fun d => 0 <= d < 10) ds /\ digits_value 10 ds = n /\
    to_dec_aux (S f) n (string_of_digits acc) = string_of_digits (ds ++ acc).
Proof.
  revert n acc. induction f as [|f IH]; intros n acc Hn.
  - cbn in Hn. exists [n]. assert (E : n / 10 = 0) by (apply Z.div_small; lia).
    assert (M : n mod 10 = n) by (apply Z.mod_small; lia).
    split; [discriminate|]. split; [constructor; [lia | constructor]|].
    split; [reflexivity|].
    cbn [to_dec_aux]. rewrite E, M. reflexivity.
  - assert (Hm : 0 <= n mod 10 < 10) by (apply Z.mod_pos_bound; lia).
    assert (Hq : 0 <= n / 10) by (apply Z.div_pos; lia).
    cbn [to_dec_aux].
    destruct (Z.eqb_spec (n / 10) 0) as [E|E].
    + exists [n mod 10].
      split; [discriminate|]. split; [constructor; [exact Hm | constructor]|].
      split; [cbn; pose proof (Z.div_mod n 10); lia | reflexivity].
    + assert (Hlt : n / 10 < 10 ^ Z.of_nat (S f)).
      { apply Z.div_lt_upper_bound; [lia|].
        replace (Z.of_nat (S (S f))) with (Z.succ (Z.of_nat (S f))) in Hn by lia.
        rewrite Z.pow_succ_r in Hn by lia. lia. }
      destruct (IH (n / 10) (n mod 10 :: acc) (conj Hq Hlt)) as (ds & Hne & Hf & Hv & He).
      exists (ds ++ [n mod 10]).
      split; [destruct ds; [contradiction | discriminate]|].
      split; [apply Forall_app; split; [exact Hf | constructor; [exact Hm | constructor]]|].
      split; [rewrite digits_value_snoc, Hv; pose proof (Z.div_mod n 10); lia|].
      rewrite <- app_assoc. exact He.
Qed.

(** [String(n)] of a non-negative integer is a non-empty string of decimal
    digits whose value is [n]. *)
Lemma number_to_string_digits (n : Z) : 0 <= n ->
  exists ds, ds <> [] /\ Forall (fun d => 0 <= d < 10) ds /\ digits_value 10 ds = n /\
    number_to_string n = string_of_digits ds.
Proof.
  intro Hn. unfold number_to_string.
  assert (Hb : n < 10 ^ Z.of_nat (S (Z.to_nat (Z.log2 n)))).
  { pose proof (Z.log2_nonneg n).
    replace (Z.of_nat (S (Z.to_nat (Z.log2 n)))) with (Z.succ (Z.log2 n)) by lia.
    apply Z.lt_le_trans with (2 ^ Z.succ (Z.log2 n)).
    - destruct (Z.eq_dec n 0) as [->|Hz]; [cbn; lia|].
      apply Z.log2_spec; lia.
    - apply Z.pow_le_mono_l; lia. }
  destruct (to_dec_aux_digits (Z.to_nat (Z.log2 n)) n [] (conj Hn Hb))
    as (ds & Hne & Hf & Hv & He).
  exists ds. split; [exact Hne|]. split; [exact Hf|]. split; [exact Hv|].
  rewrite app_nil_r in He. exact He.
Qed.

(** X9: every stored record of a reachable store is found by GET on the path
    the test suite builds with [`/api/users/${userId}`]: the decimal string of
    its id is read back by [parseInt] as the id itself. *)
Theorem get_user_by_decimal_id (st : state) (u : user)
  (Hr : reachable st) (Hin : In u (users st)) :
  snd (get_user st (number_to_string (id u))) =
    [ERespond (json_resp 200 (user_to_json u))].
Proof.
  destruct (reachable_ids_ordered st Hr) as (_ & _ & Hf).
  rewrite Forall_map, Forall_forall in Hf. pose proof (Hf u Hin) as Hu.
  destruct (number_to_string_digits (id u) ltac:(lia)) as (ds & Hne & Hd & Hv & He).
  assert (Hp : parseInt (number_to_string (id u)) = Some (id u))
    by (rewrite He, parseInt_digits by assumption; rewrite Hv; reflexivity).
  unfold get_user. cbn [snd].
  rewrite (find_id_present st u _ Hr Hin Hp). reflexivity.
Qed.

(** *** Start-up, repeated deletes and ids below 1 *)

(** X10: after [initNATS()] connects, the handle stays in place across any
    sequence of requests: the store is untouched by the connect, GET /ready
    keeps reporting [natsConnected: true], and every valid POST publishes on
    [user.created] exactly the body of its 201 response. *)
Theorem connect_success_keeps_publishing (st : state) (c : nats_client) (ops : list op) :
  let '(k, st1, _) := initNATS st (ConnOk c) in
  k = Normal /\ users st1 = users st /\ nextId st1 = nextId st /\
  let stn := fst (run st1 ops) in
  nats stn = Some c /\
  response_of (snd (ready stn)) =
    Some (json_resp 200 (JObj [("status", JStr "ready"); ("natsConnected", JBool true)])) /\
  (forall b now pub,
     (truthy (get_field b "name") && truthy (get_field b "email"))%bool = true ->
     exists p, In (EPublish "user.created" p) (snd (post_user stn b now pub)) /\
               response_of (snd (post_user stn b now pub)) = Some (json_resp 201 p)).
Proof.
  cbn [initNATS]. split; [reflexivity|]. split; [reflexivity|]. split; [reflexivity|].
  pose proof (run_nats ops (mkState (users st) (nextId st) (Some c))) as Hn.
  cbn [nats] in Hn. split; [exact Hn|]. split.
  - unfold ready. rewrite Hn. reflexivity.
  - intros b now pub Hv. exact (post_user_publishes_body _ c b now pub Hn Hv).
Qed.

(** X11: in a reachable store, a second DELETE /api/users/:id on the same
    segment answers 404 and changes nothing, whatever the first one did. *)
Theorem delete_twice_not_found (st : state) (seg : string) (Hr : reachable st) :
  delete_user (fst (delete_user st seg)) seg =
    (fst (delete_user st seg), [ERespond not_found]).
Proof.
  destruct (find (id_matches (parseInt seg)) (users st)) as [old|] eqn:Hf.
  - destruct (delete_user_found st seg old Hf) as (l1 & l2 & Hu & Hd).
    rewrite Hd. cbn [fst]. apply delete_user_absent. cbn [users].
    apply find_some in Hf as [_ Hm].
    destruct (parseInt seg) as [k|] eqn:Hs; [|apply find_nan].
    cbn in Hm. apply Z.eqb_eq in Hm. subst k.
    apply find_id_absent.
    destruct (reachable_inv st Hr) as [Hn _]. rewrite Hu, map_app in Hn.
    cbn in Hn. rewrite map_app. exact (NoDup_remove_2 _ _ _ Hn).
  - rewrite (delete_user_absent st seg Hf). cbn [fst].
    exact (delete_user_absent st seg Hf).
Qed.

(** X12: ids start at 1, so in a reachable store GET /api/users/:id answers 404
    for every segment that [parseInt] reads as 0 or a negative number
    ("0", "-1", "-0x10", ...). *)
Theorem get_user_nonpositive_not_found (st : state) (seg : string) (n : Z)
  (Hr : reachable st) (Hs : parseInt seg = Some n) (Hn : n <= 0) :
  get_user st seg = (st, [ERespond not_found]).
Proof.
  unfold get_user. rewrite Hs, find_id_absent; [reflexivity|].
  destruct (reachable_ids_ordered st Hr) as (_ & _ & Hf).
  rewrite Forall_forall in Hf. intro Hin. specialize (Hf n Hin). lia.
Qed.

(** ** Instances of the properties above *)

Lemma reachable_ids_sorted_witness :
  reachable one_user_state /\
  Sorted Z.lt (map id (users one_user_state)) /\
  Forall (fun u => 1 <= id u < nextId one_user_state) (users one_user_state).
Proof.
  split; [exact one_user_reachable|].
  apply (reachable_ids_sorted one_user_state). exact (reach_step _ _ reach_init).
Defined.

Lemma post_then_get_witness :
  reachable one_user_state /\
  (truthy (get_field john "name") && truthy (get_field john "email"))%bool = true /\
  parseInt "2" = Some (nextId one_user_state) /\
  exists body,
    response_of (snd (post_user one_user_state john "t1" PubOk)) =
      Some (json_resp 201 body) /\
    snd (get_user (fst (post_user one_user_state john "t1" PubOk)) "2") =
      [ERespond (json_resp 200 body)].
Proof.
  split; [exact one_user_reachable|]. split; [reflexivity|]. split; [reflexivity|].
  apply (post_then_get one_user_state john "t1" PubOk "2").
  - exact (reach_step _ _ reach_init).
  - reflexivity.
  - reflexivity.
Defined.

Lemma put_then_get_witness :
  reachable one_user_state /\ In john_record (users one_user_state) /\
  parseInt "1" = Some (id john_record) /\
  snd (get_user (fst (put_user one_user_state "1" (JObj [("name", JStr "New")]) "t1")) "1") =
    snd (put_user one_user_state "1" (JObj [("name", JStr "New")]) "t1").
Proof.
  split; [exact one_user_reachable|]. split; [left; reflexivity|]. split; [reflexivity|].
  apply (put_then_get one_user_state "1" (JObj [("name", JStr "New")]) "t1" john_record).
  - exact (reach_step _ _ reach_init).
  - left; reflexivity.
  - reflexivity.
Defined.

Lemma error_response_no_change_witness :
  response_of (snd (step one_user_state (OpGet "7"))) = Some not_found /\
  400 <= status not_found /\
  fst (step one_user_state (OpGet "7")) = one_user_state.
Proof.
  split; [reflexivity|]. split; [vm_compute; discriminate|].
  apply (error_response_no_change one_user_state (OpGet "7") not_found).
  - reflexivity.
  - vm_compute; discriminate.
Defined.

Lemma published_payload_is_response_witness :
  nats connected_state = Some (NatsClient "nats://nats:4222") /\
  (truthy (get_field john "name") && truthy (get_field john "email"))%bool = true /\
  exists p, In (EPublish "user.created" p) (snd (post_user connected_state john "t0" PubOk)) /\
            response_of (snd (post_user connected_state john "t0" PubOk)) =
              Some (json_resp 201 p).
Proof.
  split; [reflexivity|]. split; [reflexivity|].
  apply (published_payload_is_response connected_state (NatsClient "nats://nats:4222")
           john "t0" PubOk).
  - reflexivity.
  - reflexivity.
Defined.

Lemma get_user_by_decimal_id_witness :
  reachable one_user_state /\ In john_record (users one_user_state) /\
  snd (get_user one_user_state (number_to_string (id john_record))) =
    [ERespond (json_resp 200 (user_to_json john_record))].
Proof.
  split; [exact one_user_reachable|]. split; [left; reflexivity|].
  apply (get_user_by_decimal_id one_user_state john_record).
  - exact (reach_step _ _ reach_init).
  - left; reflexivity.
Defined.

Lemma delete_twice_not_found_witness :
  reachable one_user_state /\
  delete_user (fst (delete_user one_user_state "1")) "1" =
    (fst (delete_user one_user_state "1"), [ERespond not_found]).
Proof.
  split; [exact one_user_reachable|].
  apply (delete_twice_not_found one_user_state "1"). exact (reach_step _ _ reach_init).
Defined.

Lemma get_user_nonpositive_not_found_witness :
  reachable one_user_state /\ parseInt "-0x10" = Some (-16) /\ -16 <= 0 /\
  get_user one_user_state "-0x10" = (one_user_state, [ERespond not_found]).
Proof.
  split; [exact one_user_reachable|]. split; [reflexivity|]. split; [lia|].
  apply (get_user_nonpositive_not_found one_user_state "-0x10" (-16)).
  - exact (reach_step _ _ reach_init).
  - reflexivity.
  - lia.
Defined.
